(** * nbgrader.dbutil: generating an alembic.ini and running alembic

    A shallow embedding of [nbgrader/dbutil.py].  The module reads a
    template, fills it with [str.format], writes it into a temporary
    directory, runs the external [alembic] tool on it and removes the
    directory again.  The file system, the name generator of [tempfile],
    the child process and the call log are explicit state; Python
    exceptions are the [Raise] outcome of a small state-and-error monad.
    Text is a string of 8-bit characters, a file holds text, and a path is
    the key of its file or directory. *)

From Stdlib Require Import ZArith Ascii.
From stdpp Require Import gmap strings list fin_maps.

Local Open Scope Z_scope.
Local Open Scope nat_scope.

(** ** Text and POSIX paths ([posixpath]) *)

Module Path.

Definition sep : ascii := "/"%char.

Definition is_sep (c : ascii) : bool := Ascii.eqb c sep.

(** [s.startswith('/')], which is also [os.path.isabs]. *)
Definition isabs (s : string) : bool :=
  match s with
  | String c _ => is_sep c
  | EmptyString => false
  end.

(** [s.endswith('/')] *)
Fixpoint endswith_sep (s : string) : bool :=
  match s with
  | EmptyString => false
  | String c r =>
      match r with
      | EmptyString => is_sep c
      | String _ _ => endswith_sep r
      end
  end.

(** ['/' in s] *)
Fixpoint has_sep (s : string) : bool :=
  match s with
  | EmptyString => false
  | String c r => is_sep c || has_sep r
  end.

(** [s == '/' * len(s)] *)
Fixpoint all_sep (s : string) : bool :=
  match s with
  | EmptyString => true
  | String c r => is_sep c && all_sep r
  end.

(** [s.rstrip('/')] *)
Fixpoint rstrip_sep (s : string) : string :=
  match s with
  | EmptyString => EmptyString
  | String c r =>
      match rstrip_sep r with
      | EmptyString => if is_sep c then EmptyString else String c EmptyString
      | String _ _ as r' => String c r'
      end
  end.

(** [p[:p.rfind('/') + 1]] *)
Fixpoint head_of (p : string) : string :=
  match p with
  | EmptyString => EmptyString
  | String c r =>
      if has_sep r then String c (head_of r)
      else if is_sep c then String c EmptyString
      else EmptyString
  end.

Definition is_empty (s : string) : bool :=
  match s with EmptyString => true | String _ _ => false end.

(** [os.path.join(a, b)] for two components. *)
Definition join (a b : string) : string :=
  if isabs b then b
  else if is_empty a || endswith_sep a then a +:+ b
  else a +:+ String sep b.

(** [os.path.dirname(p)] *)
Definition dirname (p : string) : string :=
  let head := head_of p in
  if negb (is_empty head) && negb (all_sep head) then rstrip_sep head
  else head.

(** [d] with one separator after it, as the root already has. *)
Definition with_sep (d : string) : string :=
  if endswith_sep d then d else d +:+ String sep EmptyString.

(** [q] lies strictly below the directory [d]. *)
Definition is_under (d q : string) : bool :=
  String.prefix (with_sep d) q && negb (String.eqb (with_sep d) q).

End Path.

(** ** Exceptions *)

Inductive os_error_kind :=
| FileNotFoundError
| FileExistsError
| IsADirectoryError
| NotADirectoryError
| PermissionError
| OtherOSError (errno : nat).

(** What [str.format] can raise. *)
Inductive format_error :=
| ValueError (msg : string)
| KeyError (key : string)
| IndexError (index : N)
| AttributeError (msg : string)
| TypeError (msg : string).

Inductive exn :=
| OSError (kind : os_error_kind) (filename : string)
| FormatError (e : format_error)
| CalledProcessError (returncode : Z) (cmd : list string)
| Exception (msg : string)
| EmbeddedNullByte
| UnicodeDecodeError
| UnicodeEncodeError.

Inductive result (A : Type) :=
| Return (a : A)
| Raise (e : exn).
Arguments Return {A} a.
Arguments Raise {A} e.

Definition is_os_error (e : exn) : bool :=
  match e with OSError _ _ => true | _ => false end.

(** ** [str.format] with the keyword arguments [alembic_dir] and [db_url] *)

Module Format.

(** The scanner is that of CPython's [MarkupIterator]: literal text in
    which a doubled brace stands for one brace, and replacement fields
    [{name}].  A field that uses a conversion ([!]), a format spec ([:])
    or an attribute or index lookup ([.], [[]) is outside this scanner:
    [scan] then answers [None] and the caller asks the interpreter. *)
Inductive mode :=
| Text
| AfterOpen
| AfterClose
| Name (acc : string).

Definition is_digit (c : ascii) : bool :=
  let n := nat_of_ascii c in (48 <=? n) && (n <=? 57).


Definition PY_SSIZE_T_MAX : N := 9223372036854775807.


Definition is_ext (c : ascii) : bool :=
  Ascii.eqb c "!" || Ascii.eqb c ":" || Ascii.eqb c "." || Ascii.eqb c "[".

(** CPython's [get_integer] on a field name: the digits are read from the
    left; the first character that is no digit makes the name a keyword,
    and a value beyond [PY_SSIZE_T_MAX] is an error as soon as it is
    reached, whatever follows.  Digits are the ASCII digits. *)
Inductive integer :=
| Index (n : N)
| NotAnIndex
| TooManyDigits.

Fixpoint get_integer (acc : N) (s : string) : integer :=
  match s with
  | EmptyString => Index acc
  | String c r =>
      if is_digit c then
        if (PY_SSIZE_T_MAX <? acc * 10 + (N_of_ascii c - 48))%N then TooManyDigits
        else get_integer (acc * 10 + (N_of_ascii c - 48))%N r
      else NotAnIndex
  end.

(** Looking up a field name: no positional argument is passed, so an
    empty name (the first automatic index, 0) or a numeric name is out of
    range; a keyword must be one of the two that are passed. *)
Definition get_field (name alembic_dir db_url : string) : format_error + string :=
  match get_integer 0 name with
  | TooManyDigits => inl (ValueError "Too many decimal digits in format string")
  | Index n => inl (IndexError n)
  | NotAnIndex =>
      if String.eqb name "alembic_dir" then inr alembic_dir
      else if String.eqb name "db_url" then inr db_url
      else inl (KeyError name)
  end.

Definition snoc (s : string) (c : ascii) : string := s +:+ String c EmptyString.

Definition emit (c : ascii) (r : option (format_error + string)) :
    option (format_error + string) :=
  match r with
  | Some (inr out) => Some (inr (String c out))
  | other => other
  end.

Definition emit_str (s : string) (r : option (format_error + string)) :
    option (format_error + string) :=
  match r with
  | Some (inr out) => Some (inr (s +:+ out))
  | other => other
  end.

Fixpoint scan (m : mode) (alembic_dir db_url : string) (s : string) :
    option (format_error + string) :=
  match s with
  | EmptyString =>
      match m with
      | Text => Some (inr EmptyString)
      | AfterOpen => Some (inl (ValueError "Single '{' encountered in format string"))
      | AfterClose => Some (inl (ValueError "Single '}' encountered in format string"))
      | Name _ => Some (inl (ValueError "expected '}' before end of string"))
      end
  | String c r =>
      match m with
      | Text =>
          if Ascii.eqb c "{" then scan AfterOpen alembic_dir db_url r
          else if Ascii.eqb c "}" then scan AfterClose alembic_dir db_url r
          else emit c (scan Text alembic_dir db_url r)
      | AfterOpen =>
          if Ascii.eqb c "{" then emit c (scan Text alembic_dir db_url r)
          else if Ascii.eqb c "}" then
            match get_field EmptyString alembic_dir db_url with
            | inl e => Some (inl e)
            | inr v => emit_str v (scan Text alembic_dir db_url r)
            end
          else if is_ext c then None
          else scan (Name (String c EmptyString)) alembic_dir db_url r
      | AfterClose =>
          if Ascii.eqb c "}" then emit c (scan Text alembic_dir db_url r)
          else Some (inl (ValueError "Single '}' encountered in format string"))
      | Name acc =>
          if Ascii.eqb c "}" then
            match get_field acc alembic_dir db_url with
            | inl e => Some (inl e)
            | inr v => emit_str v (scan Text alembic_dir db_url r)
            end
          else if Ascii.eqb c "{" then
            Some (inl (ValueError "unexpected '{' in field name"))
          else if is_ext c then None
          else scan (Name (snoc acc c)) alembic_dir db_url r
      end
  end.

(** [tpl.format(alembic_dir=..., db_url=...)]; [interp] is what the
    interpreter does with a template that leaves the scanner above. *)
Definition format (interp : string -> string -> string -> format_error + string)
    (tpl alembic_dir db_url : string) : format_error + string :=
  match scan Text alembic_dir db_url tpl with
  | Some r => r
  | None => interp tpl alembic_dir db_url
  end.

End Format.

(** ** The world: file system, working directory, name generator, call log *)

Inductive node :=
| File (content : string)
| Dir.

Inductive proc_result :=
| Exited (returncode : Z)
| NotStarted (kind : os_error_kind).

(** What the module does not define itself. *)
Record Env := {
  (** [_here], the absolute directory of the module's own file *)
  here : string;
  (** [tempfile.gettempdir()] *)
  tempdir : string;
  (** the random choices behind [tempfile]'s candidate names *)
  rng : nat -> nat;
  (** the child process: it sees the argument list, the working directory
      and the file system, and leaves a file system and an exit status *)
  tool : list string -> string -> gmap string node -> proc_result * gmap string node;
  (** the interpreter on templates outside [Format.scan] *)
  format_ext : string -> string -> string -> format_error + string
}.

Record World := {
  nodes : gmap string node;
  cwd : string;
  rng_pos : nat;
  calls : list (list string)
}.

Definition set_nodes (w : World) (fs : gmap string node) : World :=
  {| nodes := fs; cwd := cwd w; rng_pos := rng_pos w; calls := calls w |}.

(** ** State and exceptions *)

Definition M (A : Type) : Type := World -> result A * World.

Definition ret {A} (a : A) : M A := fun w => (Return a, w).

Definition raise {A} (e : exn) : M A := fun w => (Raise e, w).

Definition bind {A B} (m : M A) (k : A -> M B) : M B :=
  fun w =>
    match m w with
    | (Return a, w1) => k a w1
    | (Raise e, w1) => (Raise e, w1)
    end.

Notation "'let*' x := m 'in' k" := (bind m (fun x => k))
  (at level 10, x name, m at level 100, k at level 200).
Notation "'do' m 'then' k" := (bind m (fun _ => k))
  (at level 10, m at level 100, k at level 200).

(** [try: block finally: final].  The final clause always runs; when it
    raises, its exception replaces the outcome of the block. *)
Definition try_finally {A} (block : M A) (final : M unit) : M A :=
  fun w =>
    match block w with
    | (r, w1) =>
        match final w1 with
        | (Return _, w2) => (r, w2)
        | (Raise e, w2) => (Raise e, w2)
        end
    end.

(** ** Operating-system calls *)

(** A relative path is taken from the working directory. *)
Definition resolve (w : World) (p : string) : string :=
  if Path.isabs p then p else Path.join (cwd w) p.

(** The error for a path [p] that cannot be reached: a file stands where
    its directory should be, or nothing is there. *)
Definition missing (fs : gmap string node) (p : string) : os_error_kind :=
  match fs !! Path.dirname p with
  | Some (File _) => NotADirectoryError
  | _ => FileNotFoundError
  end.

(** [with open(path) as f: f.read()] *)
Definition read_text (path : string) : M string :=
  fun w =>
    match nodes w !! resolve w path with
    | Some (File content) => (Return content, w)
    | Some Dir => (Raise (OSError IsADirectoryError path), w)
    | None => (Raise (OSError (missing (nodes w) (resolve w path)) path), w)
    end.

(** [open(path, 'w')]: creates or truncates; answers the opened file. *)
Definition open_w (path : string) : M string :=
  fun w =>
    let p := resolve w path in
    match nodes w !! p with
    | Some Dir => (Raise (OSError IsADirectoryError path), w)
    | Some (File _) => (Return p, set_nodes w (<[p := File EmptyString]> (nodes w)))
    | None =>
        match nodes w !! Path.dirname p with
        | Some Dir => (Return p, set_nodes w (<[p := File EmptyString]> (nodes w)))
        | _ => (Raise (OSError (missing (nodes w) p) path), w)
        end
    end.

(** [f.write(text)] on a file just opened with ['w'], then closing it. *)
Definition write_close (f : string) (text : string) : M unit :=
  fun w => (Return tt, set_nodes w (<[f := File text]> (nodes w))).

(** [os.mkdir(path)] *)
Definition mkdir (path : string) : M unit :=
  fun w =>
    let p := resolve w path in
    match nodes w !! p with
    | Some _ => (Raise (OSError FileExistsError path), w)
    | None =>
        match nodes w !! Path.dirname p with
        | Some Dir => (Return tt, set_nodes w (<[p := Dir]> (nodes w)))
        | _ => (Raise (OSError (missing (nodes w) p) path), w)
        end
    end.

Definition outside (p : string) (q : string) : bool :=
  negb (String.eqb p q) && negb (Path.is_under p q).

(** [shutil.rmtree(path)] *)
Definition rmtree (path : string) : M unit :=
  fun w =>
    let p := resolve w path in
    match nodes w !! p with
    | None => (Raise (OSError (missing (nodes w) p) path), w)
    | Some (File _) => (Raise (OSError NotADirectoryError path), w)
    | Some Dir =>
        (Return tt, set_nodes w (filter (fun kv => outside p kv.1 = true) (nodes w)))
    end.

(** ** [tempfile.mkdtemp] *)

Module Tempfile.

(** [os.TMP_MAX] on Linux, 238328. *)
Definition TMP_MAX : nat := 62 * 62 * 62.

Definition characters : list ascii :=
  String.list_ascii_of_string "abcdefghijklmnopqrstuvwxyz0123456789_".

Definition pick (k : nat) : ascii :=
  nth (k mod 37) characters "_"%char.

(** One candidate name: eight characters drawn at position [pos]. *)
Definition candidate (draw : nat -> nat) (pos : nat) : string :=
  String.string_of_list_ascii (map (fun i => pick (draw (pos + i))) (seq 0 8)).

Definition next_name (E : Env) : M string :=
  fun w =>
    (Return (candidate (rng E) (rng_pos w)),
     {| nodes := nodes w; cwd := cwd w; rng_pos := rng_pos w + 8; calls := calls w |}).

Fixpoint mkdtemp_loop (E : Env) (tries : nat) : M string :=
  match tries with
  | O => raise (OSError FileExistsError "No usable temporary directory name found")
  | S n =>
      let* name := next_name E in
      let file := Path.join (tempdir E) ("tmp" +:+ name) in
      fun w =>
        match mkdir file w with
        | (Return _, w1) => (Return file, w1)
        | (Raise (OSError FileExistsError _), w1) => mkdtemp_loop E n w1
        | (Raise e, w1) => (Raise e, w1)
        end
  end.

Definition mkdtemp (E : Env) : M string := mkdtemp_loop E TMP_MAX.

End Tempfile.

(** ** [subprocess.check_call] *)

Definition check_call (E : Env) (args : list string) : M unit :=
  fun w =>
    let w1 := {| nodes := nodes w; cwd := cwd w; rng_pos := rng_pos w;
                 calls := calls w ++ [args] |} in
    match tool E args (cwd w) (nodes w) with
    | (Exited rc, fs) =>
        if Z.eqb rc 0 then (Return tt, set_nodes w1 fs)
        else (Raise (CalledProcessError rc args), set_nodes w1 fs)
    | (NotStarted k, fs) => (Raise (OSError k (default EmptyString (head args))), set_nodes w1 fs)
    end.

(** ** The module *)

Section Dbutil.

Variable E : Env.

Definition ALEMBIC_INI_TEMPLATE_PATH : string := Path.join (here E) "alembic.ini".
Definition ALEMBIC_DIR : string := Path.join (here E) "alembic".

Definition lift_format (r : format_error + string) : M string :=
  match r with
  | inr text => ret text
  | inl e => raise (FormatError e)
  end.

(** [def write_alembic_ini(alembic_ini='alembic.ini',
                           db_url='sqlite:///gradebook.db')] *)
Definition write_alembic_ini (alembic_ini db_url : option string) : M unit :=
  let alembic_ini := default "alembic.ini" alembic_ini in
  let db_url := default "sqlite:///gradebook.db" db_url in
  let* alembic_ini_tpl := read_text ALEMBIC_INI_TEMPLATE_PATH in
  let* f := open_w alembic_ini in
  let* text := lift_format (Format.format (format_ext E) alembic_ini_tpl ALEMBIC_DIR db_url) in
  write_close f text.

(** [with _temp_alembic_ini(db_url) as alembic_ini: body]: the generator
    runs up to its [yield], the body of the [with] statement runs with
    the yielded path, and the generator is resumed (or the body's
    exception is thrown into it) so that its [finally] clause runs. *)
Definition _temp_alembic_ini {A} (db_url : string) (body : string -> M A) : M A :=
  let* td := Tempfile.mkdtemp E in
  try_finally
    (let alembic_ini := Path.join td "alembic.ini" in
     do write_alembic_ini (Some alembic_ini) (Some db_url) then
     body alembic_ini)
    (rmtree td).

(** [def upgrade(db_url, revision='head')] *)
Definition upgrade (db_url : string) (revision : option string) : M unit :=
  let revision := default "head" revision in
  _temp_alembic_ini db_url (fun alembic_ini =>
    check_call E ["alembic"; "-c"; alembic_ini; "upgrade"; revision]).

(** [def _alembic] with its variadic arguments as a list *)
Definition _alembic (args : list string) : M unit :=
  _temp_alembic_ini "sqlite:///gradebook.db" (fun alembic_ini =>
    check_call E (["alembic"; "-c"; alembic_ini] ++ args)).

(** The entry point [_alembic] applied to [sys.argv[1:]]. *)
Definition main (argv : list string) : M unit := _alembic (drop 1 argv).

End Dbutil.

Definition is_dir (fs : gmap string node) (p : string) : bool :=
  match fs !! p with
  | Some Dir => true
  | _ => false
  end.

(** ** The operating system in more detail

    The calls above take a path as the key of its entry and a file as its
    text.  The calls of this module follow a path as the kernel does,
    name by name from the root or from the working directory, read and
    write a file in text mode (UTF-8, universal newlines) and write to a
    device that can refuse.  A file holds bytes; an entry is kept under its
    absolute path without empty, [.] or [..] names.  Symbolic links and
    permissions are not part of it. *)

Module Posix.

Definition NAME_MAX : nat := 255.
Definition PATH_MAX : nat := 4096.
Definition ENAMETOOLONG : nat := 36.

Definition CR : ascii := "013"%char.
Definition LF : ascii := "010"%char.
Definition NUL : ascii := "000"%char.

Fixpoint has_nul (s : string) : bool :=
  match s with
  | EmptyString => false
  | String c r => Ascii.eqb c NUL || has_nul r
  end.

(** *** UTF-8 *)

Inductive utf8_state :=
| Boundary
| Pending (more lo hi : nat).

Definition utf8_step (st : utf8_state) (c : ascii) : option utf8_state :=
  let b := nat_of_ascii c in
  match st with
  | Boundary =>
      if b <? 128 then Some Boundary
      else if (194 <=? b) && (b <=? 223) then Some (Pending 0 128 191)
      else if b =? 224 then Some (Pending 1 160 191)
      else if (225 <=? b) && (b <=? 236) then Some (Pending 1 128 191)
      else if b =? 237 then Some (Pending 1 128 159)
      else if (238 <=? b) && (b <=? 239) then Some (Pending 1 128 191)
      else if b =? 240 then Some (Pending 2 144 191)
      else if (241 <=? b) && (b <=? 243) then Some (Pending 2 128 191)
      else if b =? 244 then Some (Pending 2 128 143)
      else None
  | Pending more lo hi =>
      if (lo <=? b) && (b <=? hi) then
        Some (match more with
              | O => Boundary
              | S k => Pending k 128 191
              end)
      else None
  end.

Fixpoint utf8_run (st : utf8_state) (s : string) : option utf8_state :=
  match s with
  | EmptyString => Some st
  | String c r =>
      match utf8_step st c with
      | Some st' => utf8_run st' r
      | None => None
      end
  end.

(** The bytes are the UTF-8 encoding of a text. *)
Definition valid_utf8 (s : string) : bool :=
  match utf8_run Boundary s with
  | Some Boundary => true
  | _ => false
  end.

(** Reading with [newline=None]: CR LF and a lone CR become LF. *)
Fixpoint universal_newlines (s : string) : string :=
  match s with
  | EmptyString => EmptyString
  | String c r =>
      if Ascii.eqb c CR then
        match r with
        | EmptyString => String LF EmptyString
        | String c' r' =>
            if Ascii.eqb c' LF then String LF (universal_newlines r')
            else String LF (universal_newlines r)
        end
      else String c (universal_newlines r)
  end.

(** *** Following a path *)

(** [path.split('/')] *)
Fixpoint split_sep (cur : string) (s : string) : list string :=
  match s with
  | EmptyString => [cur]
  | String c r =>
      if Path.is_sep c then cur :: split_sep EmptyString r
      else split_sep (cur +:+ String c EmptyString) r
  end.

(** The names of a path: empty names, from doubled or final separators,
    are passed over. *)
Definition names (path : string) : list string :=
  List.filter (fun c => negb (Path.is_empty c)) (split_sep EmptyString path).

Definition is_dots (c : string) : bool := String.eqb c "." || String.eqb c "..".

(** The error for going through [p], which is no directory. *)
Definition not_a_dir (fs : gmap string node) (p : string) : os_error_kind :=
  match fs !! p with
  | Some (File _) => NotADirectoryError
  | _ => FileNotFoundError
  end.

(** One name further from the directory [cur]. *)
Definition step (fs : gmap string node) (cur c : string) : os_error_kind + string :=
  if is_dir fs cur then
    if String.eqb c "." then inr cur
    else if String.eqb c ".." then inr (Path.dirname cur)
    else if NAME_MAX <? String.length c then inl (OtherOSError ENAMETOOLONG)
    else inr (Path.join cur c)
  else inl (not_a_dir fs cur).

Fixpoint walk (fs : gmap string node) (cur : string) (cs : list string) :
    os_error_kind + string :=
  match cs with
  | [] => inr cur
  | c :: rest =>
      match step fs cur c with
      | inl e => inl e
      | inr next => walk fs next rest
      end
  end.

Definition start (w : World) (path : string) : string :=
  if Path.isabs path then "/" else cwd w.

(** What is refused before any name is looked up. *)
Definition precheck (path : string) : option exn :=
  if has_nul path then Some EmbeddedNullByte
  else if PATH_MAX <=? String.length path then Some (OSError (OtherOSError ENAMETOOLONG) path)
  else if Path.is_empty path then Some (OSError FileNotFoundError path)
  else None.

(** The bytes of the file that [open(path)] opens for reading. *)
Definition source (w : World) (path : string) : exn + string :=
  match precheck path with
  | Some e => inl e
  | None =>
      match walk (nodes w) (start w path) (names path) with
      | inl k => inl (OSError k path)
      | inr p =>
          match nodes w !! p with
          | Some Dir => inl (OSError IsADirectoryError path)
          | Some (File raw) =>
              if Path.endswith_sep path then inl (OSError NotADirectoryError path)
              else inr raw
          | None => inl (OSError FileNotFoundError path)
          end
      end
  end.

(** The entry that [open(path, 'w')] creates or truncates. *)
Definition target_key (w : World) (path : string) : exn + string :=
  match precheck path with
  | Some e => inl e
  | None =>
      let cs := names path in
      match walk (nodes w) (start w path) (List.removelast cs) with
      | inl k => inl (OSError k path)
      | inr d =>
          match last cs with
          | None => inl (OSError IsADirectoryError path)
          | Some name =>
              if negb (is_dir (nodes w) d) then inl (OSError (not_a_dir (nodes w) d) path)
              else if is_dots name || Path.endswith_sep path then
                inl (OSError IsADirectoryError path)
              else if NAME_MAX <? String.length name then
                inl (OSError (OtherOSError ENAMETOOLONG) path)
              else
                match nodes w !! Path.join d name with
                | Some Dir => inl (OSError IsADirectoryError path)
                | _ => inr (Path.join d name)
                end
          end
      end
  end.

(** *** Files in text mode *)

(** [with open(path) as f: f.read()] *)
Definition read_text (path : string) : M string :=
  fun w =>
    match source w path with
    | inl e => (Raise e, w)
    | inr raw =>
        if valid_utf8 raw then (Return (universal_newlines raw), w)
        else (Raise UnicodeDecodeError, w)
    end.

(** [open(path, 'w')]: creates or truncates; answers the opened file. *)
Definition open_w (path : string) : M string :=
  fun w =>
    match target_key w path with
    | inl e => (Raise e, w)
    | inr t => (Return t, set_nodes w (<[t := File EmptyString]> (nodes w)))
    end.

(** The device under a file: it takes the bytes, or fails with an error
    after taking some of them. *)
Definition device : Type := string -> string -> option (os_error_kind * nat).

(** [f.write(text)] on a file just opened with ['w'], then closing it.
    The text is encoded when it is written; the bytes reach the device
    when the file is closed.  An [OSError] of writing names no file. *)
Definition write_close (D : device) (f : string) (text : string) : M unit :=
  fun w =>
    if valid_utf8 text then
      match D f text with
      | None => (Return tt, set_nodes w (<[f := File text]> (nodes w)))
      | Some (k, n) =>
          (Raise (OSError k EmptyString),
           set_nodes w (<[f := File (String.substring 0 n text)]> (nodes w)))
      end
    else (Raise UnicodeEncodeError, w).

(** *** [write_alembic_ini] over these calls *)

Definition write_alembic_ini (D : device) (E : Env) (alembic_ini db_url : option string) :
    M unit :=
  let alembic_ini := default "alembic.ini" alembic_ini in
  let db_url := default "sqlite:///gradebook.db" db_url in
  let* alembic_ini_tpl := read_text (ALEMBIC_INI_TEMPLATE_PATH E) in
  let* f := open_w alembic_ini in
  let* text :=
    lift_format (Format.format (format_ext E) alembic_ini_tpl (ALEMBIC_DIR E) db_url) in
  write_close D f text.

End Posix.

(** ** The template as the specification describes it

    A text with named placeholders for the migrations directory and for the
    database URL.  [template_text] is the file's content, [spec_substitute]
    the same text with each placeholder replaced and every other character
    kept. *)

Inductive seg :=
| Lit (text : string)
| AlembicDirField
| DbUrlField.

Fixpoint brace_free (s : string) : bool :=
  match s with
  | EmptyString => true
  | String c r => negb (Ascii.eqb c "{") && negb (Ascii.eqb c "}") && brace_free r
  end.

Definition seg_ok (g : seg) : bool :=
  match g with
  | Lit text => brace_free text
  | AlembicDirField | DbUrlField => true
  end.

Fixpoint template_text (segs : list seg) : string :=
  match segs with
  | [] => EmptyString
  | Lit text :: rest => text +:+ template_text rest
  | AlembicDirField :: rest => "{alembic_dir}" +:+ template_text rest
  | DbUrlField :: rest => "{db_url}" +:+ template_text rest
  end.

Fixpoint spec_substitute (segs : list seg) (alembic_dir db_url : string) : string :=
  match segs with
  | [] => EmptyString
  | Lit text :: rest => text +:+ spec_substitute rest alembic_dir db_url
  | AlembicDirField :: rest => alembic_dir +:+ spec_substitute rest alembic_dir db_url
  | DbUrlField :: rest => db_url +:+ spec_substitute rest alembic_dir db_url
  end.

(** [open(path, 'w')] would succeed: the path is no directory, and it
    names an existing file or its parent is a directory. *)
Definition writable (w : World) (path : string) : bool :=
  match nodes w !! resolve w path with
  | Some Dir => false
  | Some (File _) => true
  | None =>
      match nodes w !! Path.dirname (resolve w path) with
      | Some Dir => true
      | _ => false
      end
  end.

(** In a well-formed file system every entry lies in a directory (the
    root lies in itself). *)
Definition well_formed (fs : gmap string node) : bool :=
  bool_decide (map_Forall (fun q _ => is_dir fs (Path.dirname q) = true) fs).




(** ** Templates with escaped braces

    A template may also hold a doubled brace, which [str.format] reads as
    one literal brace. *)





(** ** A concrete installation, for running the definitions *)

Module Demo.

Definition tool_exit (rc : Z) : list string -> string -> gmap string node ->
    proc_result * gmap string node :=
  fun _ _ fs => (Exited rc, fs).

Definition env (rc : Z) : Env :=
  {| here := "/site/nbgrader";
     tempdir := "/tmp";
     rng := fun n => n;
     tool := tool_exit rc;
     format_ext := fun _ _ _ => inl (ValueError "Invalid format specifier") |}.

Definition template : list seg :=
  [Lit "[alembic] script_location = "; AlembicDirField;
   Lit " sqlalchemy.url = "; DbUrlField; Lit " format = %(levelname)-5.5s"].

Definition files (tpl : string) : gmap string node :=
  <["/" := Dir]> (<["/tmp" := Dir]> (<["/work" := Dir]> (<["/tmp/x" := Dir]>
    (<["/site" := Dir]> (<["/site/nbgrader" := Dir]>
      (<["/site/nbgrader/alembic.ini" := File tpl]> ∅)))))).

Definition world (tpl : string) : World :=
  {| nodes := files tpl; cwd := "/work"; rng_pos := 0; calls := [] |}.

Definition good : World := world (template_text template).

(** No template file at all. *)
Definition bare : World :=
  {| nodes := <["/" := Dir]> (<["/tmp" := Dir]> ∅); cwd := "/"; rng_pos := 0; calls := [] |}.

(** An operation of a caller that fails. *)
Definition failing_body (path : string) : M unit :=
  raise (Exception "operation failed").

(** The first candidate of the name generator, and the worlds after each
    step of setting up the temporary configuration. *)
Definition td : string := "/tmp/tmpabcdefgh".

Definition after_mkdtemp (w : World) : World := (Tempfile.mkdtemp (env 0) w).2.

(** The template of this installation, filled for a database URL. *)
Definition filled (db_url : string) : string :=
  "[alembic] script_location = /site/nbgrader/alembic sqlalchemy.url = "
  +:+ db_url +:+ " format = %(levelname)-5.5s".









(** A device that takes every write, and one that is full. *)
Definition sound_device : Posix.device := fun _ _ => None.


(** A template whose line ends with CR LF. *)
Definition crlf_template : list seg :=
  [Lit "url = "; DbUrlField; Lit (String Posix.CR (String Posix.LF EmptyString))].

(** A child process that exits with code zero after removing every file. *)
Definition wiping_env : Env :=
  {| here := "/site/nbgrader";
     tempdir := "/tmp";
     rng := fun n => n;
     tool := fun _ _ _ => (Exited 0, ∅);
     format_ext := fun _ _ _ => inl (ValueError "Invalid format specifier") |}.

End Demo.

(** * Properties *)

(** ** Paths *)

Section PathFacts.

Import Path.

Lemma is_sep_spec c : is_sep c = true <-> c = sep.
Proof. unfold is_sep. apply Ascii.eqb_eq. Qed.

Lemma append_cons c r s : String c r +:+ s = String c (r +:+ s).
Proof. reflexivity. Qed.

Lemma append_nil_l s : EmptyString +:+ s = s.
Proof. reflexivity. Qed.


Lemma append_assoc a b c : (a +:+ b) +:+ c = a +:+ (b +:+ c).
Proof. induction a as [|x r IH]; [done | by rewrite !append_cons, IH]. Qed.

Lemma length_append a b : String.length (a +:+ b) = String.length a + String.length b.
Proof. induction a as [|x r IH]; [done | rewrite append_cons; simpl; by rewrite IH]. Qed.

Lemma has_sep_app_sep d name : has_sep (d +:+ String sep name) = true.
Proof.
  induction d as [|c r IH].
  - done.
  - rewrite append_cons. simpl. rewrite IH. apply orb_true_r.
Qed.

Lemma head_of_app d name :
  has_sep name = false -> head_of (d +:+ String sep name) = d +:+ String sep EmptyString.
Proof.
  intros Hn. induction d as [|c r IH].
  - rewrite !append_nil_l. simpl. by rewrite Hn.
  - rewrite !append_cons. simpl. by rewrite has_sep_app_sep, IH.
Qed.

Lemma endswith_sep_cons c r :
  r <> EmptyString -> endswith_sep (String c r) = endswith_sep r.
Proof. destruct r; [done | reflexivity]. Qed.

Lemma rstrip_sep_app d :
  d <> EmptyString -> endswith_sep d = false ->
  rstrip_sep (d +:+ String sep EmptyString) = d.
Proof.
  induction d as [|c r IH]; intros Hne He; [done |].
  destruct r as [|c' r'].
  - simpl in *. by rewrite He.
  - rewrite endswith_sep_cons in He by done.
    rewrite append_cons. cbn [rstrip_sep]. rewrite IH by done. reflexivity.
Qed.

Lemma all_sep_app d :
  d <> EmptyString -> endswith_sep d = false ->
  all_sep (d +:+ String sep EmptyString) = false.
Proof.
  induction d as [|c r IH]; intros Hne He; [done |].
  destruct r as [|c' r'].
  - simpl in *. by rewrite He.
  - rewrite endswith_sep_cons in He by done.
    rewrite append_cons. cbn [all_sep]. rewrite IH by done. apply andb_false_r.
Qed.

Lemma has_sep_isabs name : has_sep name = false -> isabs name = false.
Proof. destruct name as [|c r]; simpl; [done |]. by intros [? ?]%orb_false_iff. Qed.

Lemma join_plain d name :
  d <> EmptyString -> endswith_sep d = false -> isabs name = false ->
  join d name = d +:+ String sep name.
Proof.
  intros Hne He Hn. unfold join. rewrite Hn, He.
  destruct d; [done | reflexivity].
Qed.

(** The directory of a file joined onto a directory is that directory. *)
Lemma dirname_join d name :
  d <> EmptyString -> endswith_sep d = false -> has_sep name = false ->
  dirname (join d name) = d.
Proof.
  intros Hne He Hn.
  rewrite join_plain by auto using has_sep_isabs.
  unfold dirname. rewrite head_of_app by done.
  rewrite all_sep_app by done.
  destruct d as [|c r]; [done |]. rewrite append_cons. cbn [is_empty negb andb].
  rewrite <- append_cons. by apply rstrip_sep_app.
Qed.

Lemma isabs_app a b : a <> EmptyString -> isabs (a +:+ b) = isabs a.
Proof. destruct a; [done | reflexivity]. Qed.

Lemma isabs_join a b : isabs a = true -> isabs (join a b) = true.
Proof.
  intros Ha. unfold join. destruct (isabs b) eqn:Hb; [done |].
  assert (a <> EmptyString) by (by destruct a).
  destruct (is_empty a || endswith_sep a); by rewrite isabs_app.
Qed.

Lemma endswith_sep_app a b :
  b <> EmptyString -> endswith_sep (a +:+ b) = endswith_sep b.
Proof.
  intros Hb. induction a as [|c r IH]; [done |].
  rewrite append_cons, endswith_sep_cons; [done |].
  destruct r; [done | discriminate].
Qed.

Lemma join_endswith a b :
  b <> EmptyString -> endswith_sep (join a b) = endswith_sep b.
Proof.
  intros Hb. unfold join. destruct (isabs b); [done |].
  destruct (is_empty a || endswith_sep a).
  - by apply endswith_sep_app.
  - rewrite endswith_sep_app by done. by rewrite endswith_sep_cons.
Qed.

Lemma join_nonempty a b : b <> EmptyString -> join a b <> EmptyString.
Proof.
  intros Hb. unfold join. destruct (isabs b); [done |].
  destruct (is_empty a || endswith_sep a); destruct a; simpl; done.
Qed.

Lemma prefix_app a b : String.prefix a (a +:+ b) = true.
Proof.
  induction a as [|c r IH].
  - by destruct b.
  - rewrite append_cons. simpl. destruct (ascii_dec c c); [done | congruence].
Qed.

Lemma is_under_join d name :
  d <> EmptyString -> endswith_sep d = false -> isabs name = false -> name <> EmptyString ->
  is_under d (join d name) = true.
Proof.
  intros Hne He Hn Hname. rewrite join_plain by done. unfold is_under, with_sep.
  rewrite He.
  replace (d +:+ String sep name) with ((d +:+ String sep EmptyString) +:+ name)
    by (by rewrite append_assoc).
  rewrite prefix_app. simpl. apply negb_true_iff, String.eqb_neq.
  intros Heq. apply (f_equal String.length) in Heq.
  rewrite !length_append in Heq. destruct name; [done |]. simpl in Heq. lia.
Qed.

Lemma join_neq d name :
  d <> EmptyString -> endswith_sep d = false -> isabs name = false ->
  join d name <> d.
Proof.
  intros Hne He Hn Heq. rewrite join_plain in Heq by done.
  apply (f_equal String.length) in Heq.
  rewrite !length_append in Heq. simpl in Heq. lia.
Qed.

End PathFacts.

(** ** Formatting *)

Section FormatFacts.

Import Format.

Variables alembic_dir db_url : string.

Lemma emit_emit_str c s r : emit c (emit_str s r) = emit_str (String c s) r.
Proof. by destruct r as [[?|?]|]. Qed.

Lemma emit_str_nil r : emit_str EmptyString r = r.
Proof. by destruct r as [[?|?]|]. Qed.

Lemma emit_str_value s out : emit_str s (Some (inr out)) = Some (inr (s +:+ out)).
Proof. reflexivity. Qed.

(** Text without braces is copied. *)
Lemma scan_literal text rest :
  brace_free text = true ->
  scan Text alembic_dir db_url (text +:+ rest)
  = emit_str text (scan Text alembic_dir db_url rest).
Proof.
  induction text as [|c r IH]; intros Hbf.
  - by rewrite append_nil_l, emit_str_nil.
  - simpl in Hbf. apply andb_prop in Hbf as [[Ho Hc]%andb_prop Hr].
    apply negb_true_iff in Ho, Hc.
    rewrite append_cons. cbn [scan]. rewrite Ho, Hc, IH by done.
    apply emit_emit_str.
Qed.

Lemma scan_alembic_dir_field rest :
  scan Text alembic_dir db_url ("{alembic_dir}" +:+ rest)
  = emit_str alembic_dir (scan Text alembic_dir db_url rest).
Proof. reflexivity. Qed.

Lemma scan_db_url_field rest :
  scan Text alembic_dir db_url ("{db_url}" +:+ rest)
  = emit_str db_url (scan Text alembic_dir db_url rest).
Proof. reflexivity. Qed.


Lemma scan_template segs :
  forallb seg_ok segs = true ->
  scan Text alembic_dir db_url (template_text segs)
  = Some (inr (spec_substitute segs alembic_dir db_url)).
Proof.
  induction segs as [|g rest IH]; intros Hok; [done |].
  simpl in Hok. apply andb_prop in Hok as [Hg Hrest].
  specialize (IH Hrest).
  destruct g as [text| |]; cbn [template_text spec_substitute].
  - by rewrite scan_literal, IH.
  - by rewrite scan_alembic_dir_field, IH.
  - by rewrite scan_db_url_field, IH.
Qed.

Lemma format_template interp segs :
  forallb seg_ok segs = true ->
  format interp (template_text segs) alembic_dir db_url
  = inr (spec_substitute segs alembic_dir db_url).
Proof. intros Hok. unfold format. by rewrite scan_template. Qed.

End FormatFacts.

(** ** The operating-system calls *)

Section WorldFacts.

Lemma resolve_abs w p : Path.isabs p = true -> resolve w p = p.
Proof. intros H. unfold resolve. by rewrite H. Qed.

Lemma resolve_rel w p : Path.isabs p = false -> resolve w p = Path.join (cwd w) p.
Proof. intros H. unfold resolve. by rewrite H. Qed.


Lemma open_w_writable w path :
  writable w path = true ->
  open_w path w
  = (Return (resolve w path),
     set_nodes w (<[resolve w path := File EmptyString]> (nodes w))).
Proof.
  unfold writable, open_w. intros H.
  destruct (nodes w !! resolve w path) as [[?|]|]; [done | done |].
  by destruct (nodes w !! Path.dirname (resolve w path)) as [[?|]|].
Qed.

Lemma open_w_unwritable w path :
  writable w path = false ->
  exists k, open_w path w = (Raise (OSError k path), w).
Proof.
  unfold writable, open_w. intros H.
  destruct (nodes w !! resolve w path) as [[?|]|]; [done | by eexists |].
  destruct (nodes w !! Path.dirname (resolve w path)) as [[?|]|];
    [by eexists | done | by eexists].
Qed.

Lemma open_w_raise_inv w path e w' :
  open_w path w = (Raise e, w') -> writable w path = false /\ w' = w /\ is_os_error e = true.
Proof.
  unfold writable, open_w. intros H.
  destruct (nodes w !! resolve w path) as [[?|]|]; simplify_eq; [done |].
  destruct (nodes w !! Path.dirname (resolve w path)) as [[?|]|]; by simplify_eq.
Qed.

Lemma read_text_raise_inv w path e w' :
  read_text path w = (Raise e, w') -> w' = w /\ is_os_error e = true.
Proof.
  unfold read_text. intros H.
  destruct (nodes w !! resolve w path) as [[?|]|]; by simplify_eq.
Qed.

Lemma read_text_return_inv w path text w' :
  read_text path w = (Return text, w') ->
  w' = w /\ nodes w !! resolve w path = Some (File text).
Proof.
  unfold read_text. intros H.
  destruct (nodes w !! resolve w path) as [[?|]|]; by simplify_eq.
Qed.

Lemma set_nodes_insert_twice w p a b :
  set_nodes (set_nodes w (<[p := a]> (nodes w)))
    (<[p := b]> (nodes (set_nodes w (<[p := a]> (nodes w)))))
  = set_nodes w (<[p := b]> (nodes w)).
Proof. unfold set_nodes. simpl. by rewrite insert_insert_eq. Qed.

(** [rmtree] on an absolute path leaves no directory there. *)
Lemma rmtree_no_dir td w r w' :
  Path.isabs td = true ->
  rmtree td w = (r, w') ->
  nodes w' !! td = None
  \/ (exists text, nodes w' !! td = Some (File text)
                   /\ r = Raise (OSError NotADirectoryError td)).
Proof.
  intros Habs. unfold rmtree. rewrite resolve_abs by done.
  destruct (nodes w !! td) as [[text|]|] eqn:Hn; intros ?; simplify_eq.
  - right. by exists text.
  - left. simpl. apply map_lookup_filter_None. right.
    intros x _. simpl. unfold outside. by rewrite String.eqb_refl.
  - by left.
Qed.

Lemma rmtree_dir td w :
  Path.isabs td = true ->
  nodes w !! td = Some Dir ->
  rmtree td w
  = (Return tt, set_nodes w (filter (fun kv => outside td kv.1 = true) (nodes w))).
Proof.
  intros Habs Hd. unfold rmtree. rewrite resolve_abs by done. by rewrite Hd.
Qed.

Lemma rmtree_removes td w q :
  outside td q = false ->
  filter (fun kv : string * node => outside td kv.1 = true) (nodes w) !! q = None.
Proof.
  intros Hq. apply map_lookup_filter_None. right. intros x _. simpl.
  by rewrite Hq.
Qed.

Lemma rmtree_keeps td w q :
  outside td q = true ->
  filter (fun kv : string * node => outside td kv.1 = true) (nodes w) !! q = nodes w !! q.
Proof.
  intros Hq. destruct (nodes w !! q) as [x|] eqn:Hx.
  - apply map_lookup_filter_Some. done.
  - apply map_lookup_filter_None. by left.
Qed.

Lemma rmtree_calls td w r w' : rmtree td w = (r, w') -> calls w' = calls w /\ cwd w' = cwd w.
Proof.
  unfold rmtree. destruct (nodes w !! resolve w td) as [[?|]|]; intros ?; by simplify_eq.
Qed.

End WorldFacts.

(** ** Temporary directories *)

Section TempfileFacts.

Import Tempfile.

Lemma pick_not_sep k : Path.is_sep (pick k) = false.
Proof.
  unfold pick.
  assert (Hall : forallb (fun c => negb (Path.is_sep c)) characters = true) by reflexivity.
  rewrite forallb_forall in Hall.
  apply negb_true_iff, Hall, nth_In.
  change (length characters) with 37. apply Nat.mod_upper_bound. lia.
Qed.

Lemma candidate_no_sep draw pos : Path.has_sep (candidate draw pos) = false.
Proof. unfold candidate. simpl. by rewrite !pick_not_sep. Qed.

Lemma candidate_nonempty draw pos : candidate draw pos <> EmptyString.
Proof. unfold candidate. simpl. discriminate. Qed.

Lemma no_sep_endswith s : Path.has_sep s = false -> Path.endswith_sep s = false.
Proof.
  induction s as [|c r IH]; [done |]. simpl.
  intros [Hc Hr]%orb_false_iff. destruct r; [done | by apply IH].
Qed.

Lemma next_name_run E w :
  next_name E w
  = (Return (candidate (rng E) (rng_pos w)),
     {| nodes := nodes w; cwd := cwd w; rng_pos := rng_pos w + 8; calls := calls w |}).
Proof. reflexivity. Qed.

(** A directory that [mkdtemp] answers was not there before, and
    creating it is all that happened to the file system. *)
Lemma mkdtemp_loop_inv E tries w td w1 :
  mkdtemp_loop E tries w = (Return td, w1) ->
  exists pos,
    td = Path.join (tempdir E) ("tmp" +:+ candidate (rng E) pos)
    /\ nodes w !! resolve w td = None
    /\ nodes w1 = <[resolve w td := Dir]> (nodes w)
    /\ cwd w1 = cwd w /\ calls w1 = calls w.
Proof.
  revert w. induction tries as [|n IH]; intros w; [done |].
  cbn [mkdtemp_loop]. unfold bind. rewrite next_name_run.
  set (w0 := {| nodes := nodes w; cwd := cwd w; rng_pos := rng_pos w + 8; calls := calls w |}).
  set (file := Path.join (tempdir E) ("tmp" +:+ candidate (rng E) (rng_pos w))).
  unfold mkdir. change (resolve w0 file) with (resolve w file).
  change (nodes w0) with (nodes w).
  destruct (nodes w !! resolve w file) as [x|] eqn:Hfile.
  - intros H. apply IH in H as (pos & -> & H1 & H2 & H3 & H4).
    exists pos. done.
  - unfold missing.
    destruct (nodes w !! Path.dirname (resolve w file)) as [[?|]|]; intros H; simplify_eq.
    exists (rng_pos w). done.
Qed.

(** When the first candidate is free in an existing directory, [mkdtemp]
    creates it. *)
Lemma mkdtemp_first_candidate E w :
  let file := Path.join (tempdir E) ("tmp" +:+ candidate (rng E) (rng_pos w)) in
  nodes w !! resolve w file = None ->
  nodes w !! Path.dirname (resolve w file) = Some Dir ->
  mkdtemp E w
  = (Return file,
     {| nodes := <[resolve w file := Dir]> (nodes w); cwd := cwd w;
        rng_pos := rng_pos w + 8; calls := calls w |}).
Proof.
  intros file Hfree Hparent. unfold mkdtemp.
  replace TMP_MAX with (S (Nat.pred TMP_MAX)) by reflexivity.
  cbn [mkdtemp_loop]. unfold bind. rewrite next_name_run. fold file.
  unfold mkdir.
  set (w0 := {| nodes := nodes w; cwd := cwd w; rng_pos := rng_pos w + 8; calls := calls w |}).
  change (resolve w0 file) with (resolve w file). change (nodes w0) with (nodes w).
  by rewrite Hfree, Hparent.
Qed.

Lemma temp_name_shape a name :
  Path.has_sep name = false -> name <> EmptyString ->
  Path.join a ("tmp" +:+ name) <> EmptyString
  /\ Path.endswith_sep (Path.join a ("tmp" +:+ name)) = false.
Proof.
  intros Hs Hne. split.
  - by apply join_nonempty.
  - rewrite join_endswith by done.
    change ("tmp" +:+ name) with (String "t" (String "m" (String "p" name))).
    rewrite !endswith_sep_cons by (done || by destruct name).
    by apply no_sep_endswith.
Qed.

Lemma mkdtemp_inv E w td w1 :
  Path.isabs (tempdir E) = true ->
  mkdtemp E w = (Return td, w1) ->
  Path.isabs td = true /\ td <> EmptyString /\ Path.endswith_sep td = false
  /\ nodes w !! td = None
  /\ nodes w1 = <[td := Dir]> (nodes w)
  /\ cwd w1 = cwd w /\ calls w1 = calls w.
Proof.
  intros Habs H. apply mkdtemp_loop_inv in H as (pos & -> & H1 & H2 & H3 & H4).
  assert (Ha : Path.isabs (Path.join (tempdir E) ("tmp" +:+ candidate (rng E) pos)) = true)
    by (by apply isabs_join).
  rewrite resolve_abs in H1, H2 by done.
  destruct (temp_name_shape (tempdir E) (candidate (rng E) pos)) as [Hne He];
    [apply candidate_no_sep | apply candidate_nonempty |].
  repeat split; done.
Qed.

End TempfileFacts.

(** ** The module's functions *)

Section DbutilFacts.

Variable E : Env.

Ltac unfold_write :=
  unfold write_alembic_ini, bind, lift_format, ret, raise, write_close.

(** What a successful call does. *)
Lemma write_alembic_ini_ok alembic_ini db_url w tpl text :
  nodes w !! resolve w (ALEMBIC_INI_TEMPLATE_PATH E) = Some (File tpl) ->
  writable w (default "alembic.ini" alembic_ini) = true ->
  Format.format (format_ext E) tpl (ALEMBIC_DIR E)
    (default "sqlite:///gradebook.db" db_url) = inr text ->
  write_alembic_ini E alembic_ini db_url w
  = (Return tt,
     set_nodes w (<[resolve w (default "alembic.ini" alembic_ini) := File text]> (nodes w))).
Proof.
  intros Htpl Hw Hfmt. unfold_write. unfold read_text. rewrite Htpl.
  rewrite open_w_writable by done. rewrite Hfmt.
  by rewrite set_nodes_insert_twice.
Qed.

Lemma write_alembic_ini_return_inv alembic_ini db_url w u w' :
  write_alembic_ini E alembic_ini db_url w = (Return u, w') ->
  exists tpl text,
    nodes w !! resolve w (ALEMBIC_INI_TEMPLATE_PATH E) = Some (File tpl)
    /\ writable w (default "alembic.ini" alembic_ini) = true
    /\ Format.format (format_ext E) tpl (ALEMBIC_DIR E)
         (default "sqlite:///gradebook.db" db_url) = inr text
    /\ w' = set_nodes w
              (<[resolve w (default "alembic.ini" alembic_ini) := File text]> (nodes w)).
Proof.
  unfold_write.
  destruct (read_text (ALEMBIC_INI_TEMPLATE_PATH E) w) as [[tpl|e] w0] eqn:Hr; [|done].
  apply read_text_return_inv in Hr as [-> Htpl].
  destruct (writable w (default "alembic.ini" alembic_ini)) eqn:Hw.
  - rewrite open_w_writable by done.
    destruct (Format.format _ tpl _ _) as [fe|text] eqn:Hf; [done |].
    intros H. simplify_eq. exists tpl, text.
    by rewrite set_nodes_insert_twice.
  - apply open_w_unwritable in Hw as [k ->]. done.
Qed.

(** The three ways in which a call fails. *)
Lemma write_alembic_ini_raise_inv alembic_ini db_url w e w' :
  write_alembic_ini E alembic_ini db_url w = (Raise e, w') ->
  (read_text (ALEMBIC_INI_TEMPLATE_PATH E) w = (Raise e, w) /\ w' = w)
  \/ (is_Some (nodes w !! resolve w (ALEMBIC_INI_TEMPLATE_PATH E))
      /\ open_w (default "alembic.ini" alembic_ini) w = (Raise e, w) /\ w' = w)
  \/ (exists fe, e = FormatError fe
      /\ w' = set_nodes w
                (<[resolve w (default "alembic.ini" alembic_ini) := File EmptyString]>
                   (nodes w))).
Proof.
  unfold_write.
  destruct (read_text (ALEMBIC_INI_TEMPLATE_PATH E) w) as [[tpl|e0] w0] eqn:Hr.
  - apply read_text_return_inv in Hr as [-> Htpl].
    destruct (writable w (default "alembic.ini" alembic_ini)) eqn:Hw.
    + rewrite open_w_writable by done.
      destruct (Format.format _ tpl _ _) as [fe|text] eqn:Hf; [|done].
      intros H. simplify_eq. right. right. by exists fe.
    + apply open_w_unwritable in Hw as [k Ho]. rewrite Ho.
      intros H. simplify_eq. right. left. by rewrite Htpl.
  - intros H. simplify_eq. apply read_text_raise_inv in Hr as Hr'.
    destruct Hr' as [-> _]. by left.
Qed.

Lemma write_alembic_ini_frame alembic_ini db_url w r w' :
  write_alembic_ini E alembic_ini db_url w = (r, w') ->
  calls w' = calls w /\ cwd w' = cwd w
  /\ forall q, q <> resolve w (default "alembic.ini" alembic_ini) ->
               nodes w' !! q = nodes w !! q.
Proof.
  destruct r as [u|e]; intros H.
  - apply write_alembic_ini_return_inv in H as (tpl & text & _ & _ & _ & ->).
    repeat split; [done.. |]. intros q Hq. simpl. by rewrite lookup_insert_ne.
  - apply write_alembic_ini_raise_inv in H as [[_ ->]|[(_ & _ & ->)|(fe & _ & ->)]];
      repeat split; try done.
    intros q Hq. simpl. by rewrite lookup_insert_ne.
Qed.

Lemma temp_scope_unfold {A} db_url (body : string -> M A) w td w1 :
  Tempfile.mkdtemp E w = (Return td, w1) ->
  _temp_alembic_ini E db_url body w
  = try_finally
      (do write_alembic_ini E (Some (Path.join td "alembic.ini")) (Some db_url)
       then body (Path.join td "alembic.ini"))
      (rmtree td) w1.
Proof. intros H. unfold _temp_alembic_ini, bind at 1. by rewrite H. Qed.


Lemma try_finally_rmtree {A} (block : M A) td w :
  Path.isabs td = true ->
  nodes (try_finally block (rmtree td) w).2 !! td = None
  \/ exists text,
       nodes (try_finally block (rmtree td) w).2 !! td = Some (File text)
       /\ (try_finally block (rmtree td) w).1 = Raise (OSError NotADirectoryError td).
Proof.
  intros Habs. unfold try_finally.
  destruct (block w) as [r0 w1].
  destruct (rmtree td w1) as [r1 w2] eqn:Hrm.
  apply rmtree_no_dir in Hrm as [Hnone|(text & Hfile & ->)]; [| |done].
  - left. by destruct r1.
  - right. by exists text.
Qed.

Lemma try_finally_calls {A} (block : M A) td w :
  calls (try_finally block (rmtree td) w).2 = calls (block w).2.
Proof.
  unfold try_finally. destruct (block w) as [r0 w1].
  destruct (rmtree td w1) as [r1 w2] eqn:Hrm.
  apply rmtree_calls in Hrm as [Hc _]. by destruct r1.
Qed.

Lemma check_call_calls args w :
  calls (check_call E args w).2 = calls w ++ [args].
Proof.
  unfold check_call. destruct (tool E args (cwd w) (nodes w)) as [[rc|k] fs]; [|done].
  by destruct (Z.eqb rc 0).
Qed.

Lemma temp_ini_facts td :
  Path.isabs td = true -> td <> EmptyString -> Path.endswith_sep td = false ->
  Path.isabs (Path.join td "alembic.ini") = true
  /\ Path.join td "alembic.ini" <> td
  /\ Path.dirname (Path.join td "alembic.ini") = td
  /\ Path.is_under td (Path.join td "alembic.ini") = true.
Proof.
  intros Habs Hne He. repeat split.
  - by apply isabs_join.
  - by apply join_neq.
  - by apply dirname_join.
  - by apply is_under_join.
Qed.

Lemma well_formed_parent (fs : gmap string node) q x :
  well_formed fs = true -> fs !! q = Some x -> fs !! Path.dirname q = Some Dir.
Proof.
  unfold well_formed. intros Hwf%bool_decide_eq_true Hq.
  specialize (Hwf q x Hq). unfold is_dir in Hwf. simpl in Hwf.
  by destruct (fs !! Path.dirname q) as [[?|]|].
Qed.




End DbutilFacts.

(** * The specification's claims *)

Section Claims.

Variable E : Env.

(** ** The configuration writer

    What the writer puts into its target and which I/O errors it raises
    depends on how paths are followed, on text mode and on the device:
    those two properties are stated over [Posix.write_alembic_ini], in the
    last part of this development. *)



(** ** The scoped temporary configuration *)

(** C2.  Whatever the operation run inside [_temp_alembic_ini] does, and
    whether it returns or raises, no directory is left at the path that
    [mkdtemp] created once the scope is exited: either nothing is there,
    or the operation had put a regular file in its place and leaving the
    scope raises [NotADirectoryError]. *)
Theorem temp_dir_removed_on_exit {A : Type} (db_url : string) (body : string -> M A)
    (w : World) (td : string) (w1 : World) :
  Path.isabs (tempdir E) = true ->
  Tempfile.mkdtemp E w = (Return td, w1) ->
  nodes (_temp_alembic_ini E db_url body w).2 !! td <> Some Dir
  /\ (nodes (_temp_alembic_ini E db_url body w).2 !! td = None
      \/ exists text,
           nodes (_temp_alembic_ini E db_url body w).2 !! td = Some (File text)
           /\ (_temp_alembic_ini E db_url body w).1
              = Raise (OSError NotADirectoryError td)).
Proof.
  intros Habs Hmk.
  destruct (mkdtemp_inv E w td w1 Habs Hmk) as (Ha & _).
  rewrite (temp_scope_unfold E db_url body w td w1 Hmk).
  match goal with |- context [try_finally ?b _ _] => set (block := b) end.
  destruct (try_finally_rmtree block td w1 Ha) as [Hnone|(text & Hfile & Hr)].
  - split; [by rewrite Hnone | by left].
  - split; [by rewrite Hfile |]. right. by exists text.
Qed.


(** C8.  When [write_alembic_ini] raises inside the scope, the operation
    is not run, the directory that [mkdtemp] created is removed, and the
    exception of [write_alembic_ini] is the one the caller gets. *)
Theorem temp_dir_removed_when_writing_fails {A : Type} (db_url : string)
    (body : string -> M A) (w : World) (td : string) (w1 : World) (e : exn) (w2 : World) :
  Path.isabs (tempdir E) = true ->
  Tempfile.mkdtemp E w = (Return td, w1) ->
  write_alembic_ini E (Some (Path.join td "alembic.ini")) (Some db_url) w1
    = (Raise e, w2) ->
  exists w3,
    _temp_alembic_ini E db_url body w = (Raise e, w3)
    /\ nodes w3 !! td = None
    /\ nodes w3 !! Path.join td "alembic.ini" = None
    /\ calls w3 = calls w.
Proof.
  intros Habs Hmk Hwr.
  destruct (mkdtemp_inv E w td w1 Habs Hmk) as (Ha & Hne & He & Hfresh & Hn1 & _ & Hc1).
  destruct (temp_ini_facts td Ha Hne He) as (Hia & Hneq & _ & Hunder).
  destruct (write_alembic_ini_frame E _ _ _ _ _ Hwr) as (Hc2 & _ & Hkeep).
  assert (Hdir : nodes w2 !! td = Some Dir).
  { rewrite Hkeep; [by rewrite Hn1, lookup_insert_eq |].
    simpl. rewrite (resolve_abs w1) by done. congruence. }
  rewrite (temp_scope_unfold E db_url body w td w1 Hmk).
  unfold try_finally, bind. rewrite Hwr, (rmtree_dir td w2 Ha Hdir).
  eexists. split; [reflexivity |]. simpl. repeat split.
  - apply rmtree_removes. unfold outside. by rewrite String.eqb_refl.
  - apply rmtree_removes. unfold outside. rewrite Hunder. apply andb_false_r.
  - congruence.
Qed.

(** ** Running alembic *)




End Claims.

(** * The claims on the concrete installation *)

Section Witnesses.

Import Demo.



Lemma temp_dir_removed_on_exit_witness :
  nodes (_temp_alembic_ini (env 0) "sqlite:///g.db" failing_body good).2 !! td <> Some Dir
  /\ (nodes (_temp_alembic_ini (env 0) "sqlite:///g.db" failing_body good).2 !! td = None
      \/ exists text,
           nodes (_temp_alembic_ini (env 0) "sqlite:///g.db" failing_body good).2 !! td
           = Some (File text)
           /\ (_temp_alembic_ini (env 0) "sqlite:///g.db" failing_body good).1
              = Raise (OSError NotADirectoryError td)).
Proof.
  apply (temp_dir_removed_on_exit (env 0) "sqlite:///g.db" failing_body good td
           (after_mkdtemp good)); reflexivity.
Defined.


Lemma temp_dir_removed_when_writing_fails_witness :
  exists w3,
    _temp_alembic_ini (env 0) "sqlite:///g.db" failing_body bare
    = (Raise (OSError FileNotFoundError "/site/nbgrader/alembic.ini"), w3)
    /\ nodes w3 !! td = None
    /\ nodes w3 !! Path.join td "alembic.ini" = None
    /\ calls w3 = calls bare.
Proof.
  apply (temp_dir_removed_when_writing_fails (env 0) "sqlite:///g.db" failing_body bare td
           (after_mkdtemp bare) _ (after_mkdtemp bare)); reflexivity.
Defined.




(** ** The same functions outside the hypotheses above *)

(** [str.format] turns a doubled brace of the template into one brace. *)
Example format_unescapes_braces :
  Format.format (format_ext (env 0)) "{{x}} {db_url}" "/site/nbgrader/alembic" "sqlite:///g.db"
  = inr "{x} sqlite:///g.db".
Proof. reflexivity. Qed.

(** A template that names another field raises [KeyError] after the
    target has been opened, and so leaves an empty file there. *)
Example unknown_field_leaves_empty_file :
  let r := write_alembic_ini (env 0) (Some "/tmp/x/alembic.ini") (Some "sqlite:///g.db")
             (world "url = {database}") in
  r.1 = Raise (FormatError (KeyError "database"))
  /\ nodes r.2 !! "/tmp/x/alembic.ini" = Some (File EmptyString).
Proof. split; reflexivity. Qed.

(** A non-zero exit code reaches the caller as [CalledProcessError]. *)
Example upgrade_exit_one :
  (upgrade (env 1) "sqlite:///g.db" None good).1
  = Raise (CalledProcessError 1
             ["alembic"; "-c"; "/tmp/tmpabcdefgh/alembic.ini"; "upgrade"; "head"]).
Proof. reflexivity. Qed.

(** A child process that removes the temporary directory makes the
    clean-up fail, although it exits with code zero. *)
Example upgrade_after_wiping_tool :
  (upgrade wiping_env "sqlite:///g.db" None good).1
  = Raise (OSError FileNotFoundError "/tmp/tmpabcdefgh").
Proof. reflexivity. Qed.


(** The entry point drops the program name and passes the rest on. *)
Example main_forwards_arguments :
  calls (main (env 0) ["dbutil.py"; "current"] good).2
  = [["alembic"; "-c"; "/tmp/tmpabcdefgh/alembic.ini"; "current"]].
Proof. reflexivity. Qed.

End Witnesses.

(** * Further properties of the module *)

(** ** Directories of paths *)

Section DirnameFacts.

Import Path.


Lemma all_sep_append a b : all_sep (a +:+ b) = all_sep a && all_sep b.
Proof.
  induction a as [|c r IH]; [done |].
  rewrite append_cons. simpl. by rewrite IH, andb_assoc.
Qed.








Lemma rstrip_length s : String.length (rstrip_sep s) <= String.length s.
Proof.
  induction s as [|c r IH]; [done |]. simpl.
  destruct (rstrip_sep r); [destruct (is_sep c)|]; simpl in *; lia.
Qed.




Lemma not_endswith_not_all_sep d :
  d <> EmptyString -> endswith_sep d = false -> all_sep d = false.
Proof.
  intros Hne He. pose proof (all_sep_app d Hne He) as H.
  rewrite all_sep_append in H. simpl in H. by rewrite andb_true_r in H.
Qed.



End DirnameFacts.

(** ** Formatting, further *)

Section MoreFormatFacts.

Import Format.

Variables alembic_dir db_url : string.






Lemma emit_str_error s e : emit_str s (Some (inl e)) = Some (inl e).
Proof. reflexivity. Qed.











End MoreFormatFacts.

(** ** The file system around the temporary directory *)

Section CleanupFacts.




Lemma mkdtemp_loop_raise_inv E tries w e w1 :
  Tempfile.mkdtemp_loop E tries w = (Raise e, w1) ->
  nodes w1 = nodes w /\ cwd w1 = cwd w /\ calls w1 = calls w.
Proof.
  revert w. induction tries as [|n IH]; intros w.
  - cbn [Tempfile.mkdtemp_loop]. unfold raise. intros H. by simplify_eq.
  - cbn [Tempfile.mkdtemp_loop]. unfold bind. rewrite next_name_run.
    set (w0 := {| nodes := nodes w; cwd := cwd w; rng_pos := rng_pos w + 8;
                  calls := calls w |}).
    set (file := Path.join (tempdir E) ("tmp" +:+ Tempfile.candidate (rng E) (rng_pos w))).
    unfold mkdir. change (resolve w0 file) with (resolve w file).
    change (nodes w0) with (nodes w).
    destruct (nodes w !! resolve w file) as [x|] eqn:Hfile.
    + intros H. by apply IH in H.
    + unfold missing.
      destruct (nodes w !! Path.dirname (resolve w file)) as [[?|]|]; intros H;
        by simplify_eq.
Qed.

Lemma mkdtemp_frame E w r w1 :
  Tempfile.mkdtemp E w = (r, w1) -> cwd w1 = cwd w /\ calls w1 = calls w.
Proof.
  unfold Tempfile.mkdtemp. destruct r as [td|e]; intros H.
  - by apply mkdtemp_loop_inv in H as (pos & _ & _ & _ & ? & ?).
  - by apply mkdtemp_loop_raise_inv in H as (_ & ? & ?).
Qed.

Lemma check_call_cwd E args w : cwd (check_call E args w).2 = cwd w.
Proof.
  unfold check_call. destruct (tool E args (cwd w) (nodes w)) as [[rc|k] fs]; [|done].
  by destruct (Z.eqb rc 0).
Qed.

Lemma try_finally_cwd {A} (block : M A) td w :
  cwd (try_finally block (rmtree td) w).2 = cwd (block w).2.
Proof.
  unfold try_finally. destruct (block w) as [r0 w1].
  destruct (rmtree td w1) as [r1 w2] eqn:Hrm.
  apply rmtree_calls in Hrm as [_ Hc]. by destruct r1.
Qed.

(** A scope around one [check_call] keeps the working directory and runs
    the tool at most once. *)
Lemma scope_check_call_frame E db_url (cmd : string -> list string) w :
  cwd (_temp_alembic_ini E db_url (fun ini => check_call E (cmd ini)) w).2 = cwd w
  /\ (calls (_temp_alembic_ini E db_url (fun ini => check_call E (cmd ini)) w).2 = calls w
      \/ exists ini,
           calls (_temp_alembic_ini E db_url (fun ini => check_call E (cmd ini)) w).2
           = calls w ++ [cmd ini]).
Proof.
  destruct (Tempfile.mkdtemp E w) as [[td|e] w1] eqn:Hmk.
  - destruct (mkdtemp_frame E w _ w1 Hmk) as [Hcwd Hcalls].
    rewrite (temp_scope_unfold E db_url _ w td w1 Hmk).
    rewrite try_finally_cwd, try_finally_calls. unfold bind.
    destruct (write_alembic_ini E (Some (Path.join td "alembic.ini")) (Some db_url) w1)
      as [[u|e] w2] eqn:Hwr;
      destruct (write_alembic_ini_frame E _ _ _ _ _ Hwr) as (Hc2 & Hcwd2 & _).
    + rewrite check_call_cwd, check_call_calls. split; [congruence |].
      right. exists (Path.join td "alembic.ini"). congruence.
    + simpl. split; [congruence |]. left. congruence.
  - destruct (mkdtemp_frame E w _ w1 Hmk) as [Hcwd Hcalls].
    unfold _temp_alembic_ini, bind. rewrite Hmk. simpl. split; [done | by left].
Qed.

End CleanupFacts.

(** ** The module's functions, further *)

Section MoreDbutilFacts.

Variable E : Env.

(** A template that [str.format] rejects: the target is already open. *)
Lemma write_alembic_ini_format_error alembic_ini db_url w tpl fe :
  nodes w !! resolve w (ALEMBIC_INI_TEMPLATE_PATH E) = Some (File tpl) ->
  writable w (default "alembic.ini" alembic_ini) = true ->
  Format.format (format_ext E) tpl (ALEMBIC_DIR E)
    (default "sqlite:///gradebook.db" db_url) = inl fe ->
  write_alembic_ini E alembic_ini db_url w
  = (Raise (FormatError fe),
     set_nodes w
       (<[resolve w (default "alembic.ini" alembic_ini) := File EmptyString]> (nodes w))).
Proof.
  intros Htpl Hw Hfmt.
  unfold write_alembic_ini, bind, lift_format, raise, read_text. rewrite Htpl.
  rewrite open_w_writable by done. by rewrite Hfmt.
Qed.

Lemma writable_not_dir w path :
  writable w path = true -> nodes w !! resolve w path <> Some Dir.
Proof.
  unfold writable. by destruct (nodes w !! resolve w path) as [[?|]|].
Qed.


(** The whole of what [write_alembic_ini] does, by cases. *)
Lemma write_alembic_ini_cases alembic_ini db_url w :
  (exists text,
      write_alembic_ini E alembic_ini db_url w
      = (Return tt,
         set_nodes w
           (<[resolve w (default "alembic.ini" alembic_ini) := File text]> (nodes w)))
      /\ writable w (default "alembic.ini" alembic_ini) = true
      /\ exists tpl,
           nodes w !! resolve w (ALEMBIC_INI_TEMPLATE_PATH E) = Some (File tpl)
           /\ Format.format (format_ext E) tpl (ALEMBIC_DIR E)
                (default "sqlite:///gradebook.db" db_url) = inr text)
  \/ (exists fe,
      write_alembic_ini E alembic_ini db_url w
      = (Raise (FormatError fe),
         set_nodes w
           (<[resolve w (default "alembic.ini" alembic_ini) := File EmptyString]> (nodes w)))
      /\ writable w (default "alembic.ini" alembic_ini) = true
      /\ exists tpl,
           nodes w !! resolve w (ALEMBIC_INI_TEMPLATE_PATH E) = Some (File tpl)
           /\ Format.format (format_ext E) tpl (ALEMBIC_DIR E)
                (default "sqlite:///gradebook.db" db_url) = inl fe)
  \/ (exists e, write_alembic_ini E alembic_ini db_url w = (Raise e, w)).
Proof.
  destruct (nodes w !! resolve w (ALEMBIC_INI_TEMPLATE_PATH E)) as [[tpl|]|] eqn:Htpl.
  - destruct (writable w (default "alembic.ini" alembic_ini)) eqn:Hw.
    + destruct (Format.format (format_ext E) tpl (ALEMBIC_DIR E)
                  (default "sqlite:///gradebook.db" db_url)) as [fe|text] eqn:Hfmt.
      * right. left. exists fe. split; [by apply (write_alembic_ini_format_error _ _ _ tpl) |].
        split; [done |]. by exists tpl.
      * left. exists text. split; [by apply (write_alembic_ini_ok E _ _ _ tpl) |].
        split; [done |]. by exists tpl.
    + right. right. apply open_w_unwritable in Hw as [k Ho]. eexists.
      unfold write_alembic_ini, bind, read_text. by rewrite Htpl, Ho.
  - right. right. eexists. unfold write_alembic_ini, bind, read_text. by rewrite Htpl.
  - right. right. eexists. unfold write_alembic_ini, bind, read_text. by rewrite Htpl.
Qed.

(** Putting a file where [open] for writing succeeds keeps every entry in
    a directory. *)
Lemma insert_file_well_formed w path text :
  well_formed (nodes w) = true ->
  writable w path = true ->
  well_formed (<[resolve w path := File text]> (nodes w)) = true.
Proof.
  intros Hwf Hw. set (p := resolve w path).
  assert (Hparent : nodes w !! Path.dirname p = Some Dir).
  { unfold writable in Hw. fold p in Hw.
    destruct (nodes w !! p) as [[c|]|] eqn:Hp; [|done|].
    - by apply (well_formed_parent _ _ _ Hwf) in Hp.
    - by destruct (nodes w !! Path.dirname p) as [[?|]|]. }
  assert (Hnd : nodes w !! p <> Some Dir) by (by apply writable_not_dir).
  unfold well_formed. apply bool_decide_eq_true. intros q x Hq. unfold is_dir.
  assert (Hq' : nodes w !! Path.dirname q = Some Dir).
  { destruct (decide (q = p)) as [->|Hne]; [done |].
    rewrite lookup_insert_ne in Hq by done.
    by apply (well_formed_parent _ _ _ Hwf) in Hq. }
  rewrite lookup_insert_ne by (intros Heq; rewrite Heq in Hnd; done).
  by rewrite Hq'.
Qed.



End MoreDbutilFacts.

(** * Further properties: statements *)

Section Extras.

Variable E : Env.

(** ** The configuration writer *)





(** X6.  When the module's directory is a path without a trailing
    separator, the template file and the migrations directory are two
    different entries of that directory. *)
Theorem module_paths_are_siblings :
  here E <> EmptyString ->
  Path.endswith_sep (here E) = false ->
  Path.dirname (ALEMBIC_INI_TEMPLATE_PATH E) = here E
  /\ Path.dirname (ALEMBIC_DIR E) = here E
  /\ ALEMBIC_INI_TEMPLATE_PATH E <> ALEMBIC_DIR E.
Proof.
  intros Hne He. unfold ALEMBIC_INI_TEMPLATE_PATH, ALEMBIC_DIR.
  split; [by apply dirname_join |]. split; [by apply dirname_join |].
  rewrite !join_plain by done. intros Heq.
  apply (f_equal String.length) in Heq. rewrite !length_append in Heq.
  simpl in Heq. lia.
Qed.



(** X9.  [write_alembic_ini] keeps the file system well-formed: if every
    entry lay in a directory before the call, every entry does after it,
    whatever the outcome. *)
Theorem write_alembic_ini_keeps_well_formed (alembic_ini db_url : option string)
    (w : World) :
  well_formed (nodes w) = true ->
  well_formed (nodes (write_alembic_ini E alembic_ini db_url w).2) = true.
Proof.
  intros Hwf.
  destruct (write_alembic_ini_cases E alembic_ini db_url w)
    as [(text & -> & Hw & _)|[(fe & -> & Hw & _)|(e & ->)]]; simpl.
  - by apply insert_file_well_formed.
  - by apply insert_file_well_formed.
  - done.
Qed.

(** ** The scoped temporary configuration *)





(** ** Running alembic *)



(** X16.  In every world and with every tool, [upgrade] and [_alembic]
    leave the working directory as it was and start the tool at most once,
    and then with the command line they build: nothing is retried. *)
Theorem alembic_runs_at_most_once (db_url : string) (revision : option string)
    (args : list string) (w : World) :
  cwd (upgrade E db_url revision w).2 = cwd w
  /\ (calls (upgrade E db_url revision w).2 = calls w
      \/ exists ini,
           calls (upgrade E db_url revision w).2
           = calls w ++ [["alembic"; "-c"; ini; "upgrade"; default "head" revision]])
  /\ cwd (_alembic E args w).2 = cwd w
  /\ (calls (_alembic E args w).2 = calls w
      \/ exists ini,
           calls (_alembic E args w).2 = calls w ++ ["alembic" :: "-c" :: ini :: args]).
Proof.
  destruct (scope_check_call_frame E db_url
              (fun ini => ["alembic"; "-c"; ini; "upgrade"; default "head" revision]) w)
    as [Hu1 Hu2].
  destruct (scope_check_call_frame E "sqlite:///gradebook.db"
              (fun ini => ["alembic"; "-c"; ini] ++ args) w) as [Ha1 Ha2].
  repeat split; done.
Qed.

End Extras.

(** * The further properties on the concrete installation *)

Section ExtraWitnesses.

Import Demo.





Lemma module_paths_are_siblings_witness :
  Path.dirname (ALEMBIC_INI_TEMPLATE_PATH (env 0)) = "/site/nbgrader"
  /\ Path.dirname (ALEMBIC_DIR (env 0)) = "/site/nbgrader"
  /\ ALEMBIC_INI_TEMPLATE_PATH (env 0) <> ALEMBIC_DIR (env 0).
Proof.
  apply (module_paths_are_siblings (env 0)); [discriminate | reflexivity].
Defined.









Lemma write_alembic_ini_keeps_well_formed_witness :
  well_formed
    (nodes (write_alembic_ini (env 0) (Some "/tmp/x/alembic.ini") (Some "sqlite:///g.db")
              good).2) = true.
Proof.
  apply (write_alembic_ini_keeps_well_formed (env 0) (Some "/tmp/x/alembic.ini")
           (Some "sqlite:///g.db") good).
  reflexivity.
Defined.

End ExtraWitnesses.

(** * The configuration writer over the detailed operating system *)

Section PosixFacts.

Variable D : Posix.device.
Variable E : Env.

Lemma posix_read_text_world path w r w' : Posix.read_text path w = (r, w') -> w' = w.
Proof.
  unfold Posix.read_text. destruct (Posix.source w path) as [e|raw].
  - by intros [= _ ->].
  - destruct (Posix.valid_utf8 raw); by intros [= _ ->].
Qed.


(** What the call does, outcome by outcome. *)
Lemma posix_write_alembic_ini_run alembic_ini db_url w :
  Posix.write_alembic_ini D E alembic_ini db_url w
  = match Posix.read_text (ALEMBIC_INI_TEMPLATE_PATH E) w with
    | (Raise e, _) => (Raise e, w)
    | (Return tpl, _) =>
        match Posix.target_key w (default "alembic.ini" alembic_ini) with
        | inl e => (Raise e, w)
        | inr t =>
            match Format.format (format_ext E) tpl (ALEMBIC_DIR E)
                    (default "sqlite:///gradebook.db" db_url) with
            | inl fe =>
                (Raise (FormatError fe), set_nodes w (<[t := File EmptyString]> (nodes w)))
            | inr text =>
                if Posix.valid_utf8 text then
                  match D t text with
                  | None => (Return tt, set_nodes w (<[t := File text]> (nodes w)))
                  | Some (k, n) =>
                      (Raise (OSError k EmptyString),
                       set_nodes w (<[t := File (String.substring 0 n text)]> (nodes w)))
                  end
                else
                  (Raise UnicodeEncodeError,
                   set_nodes w (<[t := File EmptyString]> (nodes w)))
            end
        end
    end.
Proof.
  unfold Posix.write_alembic_ini, bind.
  destruct (Posix.read_text (ALEMBIC_INI_TEMPLATE_PATH E) w) as [[tpl|e] w0] eqn:Hr;
    apply posix_read_text_world in Hr as ->; [|done].
  unfold Posix.open_w.
  destruct (Posix.target_key w (default "alembic.ini" alembic_ini)) as [e|t]; [done |].
  destruct (Format.format (format_ext E) tpl (ALEMBIC_DIR E)
              (default "sqlite:///gradebook.db" db_url)) as [fe|text]; [done |].
  unfold lift_format, ret, Posix.write_close.
  destruct (Posix.valid_utf8 text); [|done].
  destruct (D t text) as [[k n]|]; by rewrite set_nodes_insert_twice.
Qed.

(** A key that [target_key] answers holds no directory. *)
Lemma posix_target_not_dir w path t :
  Posix.target_key w path = inr t -> nodes w !! t <> Some Dir.
Proof.
  unfold Posix.target_key. destruct (Posix.precheck path); [done |].
  destruct (Posix.walk _ _ _) as [k|d]; [done |].
  destruct (last (Posix.names path)) as [name|]; [|done].
  destruct (negb (is_dir (nodes w) d)); [done |].
  destruct (Posix.is_dots name || Path.endswith_sep path); [done |].
  destruct (Posix.NAME_MAX <? String.length name); [done |].
  destruct (nodes w !! Path.join d name) as [[c|]|] eqn:Hn; intros [= <-]; by rewrite Hn.
Qed.

End PosixFacts.

Section PosixClaims.

Variable D : Posix.device.
Variable E : Env.

(** C1, amended.  When the template file, read in text mode, is a text
    with the two placeholders, the target can be opened for writing, the
    filled text can be encoded and the device takes it,
    [write_alembic_ini] returns normally and the file that the target path
    leads to, however the path is spelled, then holds exactly the text of
    the template with each placeholder replaced by [ALEMBIC_DIR] and by
    [db_url]: every other character of the text is kept, whatever the file
    held before is overwritten, and nothing else in the world changes. *)
Theorem text_mode_write_fills_template (alembic_ini db_url : string) (w : World)
    (segs : list seg) (t : string) :
  forallb seg_ok segs = true ->
  Posix.read_text (ALEMBIC_INI_TEMPLATE_PATH E) w = (Return (template_text segs), w) ->
  Posix.target_key w alembic_ini = inr t ->
  Posix.valid_utf8 (spec_substitute segs (ALEMBIC_DIR E) db_url) = true ->
  D t (spec_substitute segs (ALEMBIC_DIR E) db_url) = None ->
  Posix.write_alembic_ini D E (Some alembic_ini) (Some db_url) w
  = (Return tt,
     set_nodes w
       (<[t := File (spec_substitute segs (ALEMBIC_DIR E) db_url)]> (nodes w))).
Proof.
  intros Hsegs Hread Htarget Hvalid Hdev.
  rewrite posix_write_alembic_ini_run, Hread. simpl. rewrite Htarget.
  rewrite format_template by done. by rewrite Hvalid, Hdev.
Qed.


(** X2.  Whatever its outcome, [write_alembic_ini] changes nothing but the
    file that its target path leads to, however the path is spelled: every
    other entry keeps what it held, no directory is created or removed, and
    the working directory and the call log stay as they were. *)
Theorem write_changes_only_its_target (alembic_ini db_url : option string) (w : World) :
  cwd (Posix.write_alembic_ini D E alembic_ini db_url w).2 = cwd w
  /\ calls (Posix.write_alembic_ini D E alembic_ini db_url w).2 = calls w
  /\ (forall q, Posix.target_key w (default "alembic.ini" alembic_ini) <> inr q ->
        nodes (Posix.write_alembic_ini D E alembic_ini db_url w).2 !! q = nodes w !! q)
  /\ (forall q, nodes (Posix.write_alembic_ini D E alembic_ini db_url w).2 !! q = Some Dir
                <-> nodes w !! q = Some Dir).
Proof.
  rewrite posix_write_alembic_ini_run.
  destruct (Posix.read_text (ALEMBIC_INI_TEMPLATE_PATH E) w) as [[tpl|e] w0]; [|done].
  destruct (Posix.target_key w (default "alembic.ini" alembic_ini)) as [e|t] eqn:Ht;
    [done |].
  apply posix_target_not_dir in Ht as Hnd.
  assert (Hins : forall c,
    (forall q, inr t <> (inr q : exn + string) ->
       <[t := File c]> (nodes w) !! q = nodes w !! q)
    /\ (forall q, <[t := File c]> (nodes w) !! q = Some Dir <-> nodes w !! q = Some Dir)).
  { intros c. split; intros q.
    - intros Hq. rewrite lookup_insert_ne; [done |]. congruence.
    - destruct (decide (q = t)) as [->|Hq].
      + by rewrite lookup_insert_eq.
      + by rewrite lookup_insert_ne. }
  destruct (Format.format (format_ext E) tpl (ALEMBIC_DIR E)
              (default "sqlite:///gradebook.db" db_url)) as [fe|text].
  - simpl. destruct (Hins EmptyString). done.
  - destruct (Posix.valid_utf8 text).
    + destruct (D t text) as [[k n]|]; simpl.
      * destruct (Hins (String.substring 0 n text)). done.
      * destruct (Hins text). done.
    + simpl. destruct (Hins EmptyString). done.
Qed.

End PosixClaims.

Section PosixWitnesses.

Import Demo.

(** The target spelled from the working directory. *)
Lemma text_mode_write_fills_template_witness :
  Posix.write_alembic_ini sound_device (env 0) (Some "./alembic.ini")
    (Some "sqlite:///g.db") good
  = (Return tt,
     set_nodes good (<["/work/alembic.ini" := File (filled "sqlite:///g.db")]> (nodes good))).
Proof.
  apply (text_mode_write_fills_template sound_device (env 0) "./alembic.ini"
           "sqlite:///g.db" good template "/work/alembic.ini"); reflexivity.
Defined.

(** C1, as the specification states it, fails: the template below ends
    its line with CR LF, and what is written for it ends with LF alone, so
    that the target does not hold the template's content with only the
    placeholder replaced. *)
Lemma crlf_template_is_rewritten :
  nodes (world (template_text crlf_template)) !! "/site/nbgrader/alembic.ini"
  = Some (File (template_text crlf_template))
  /\ forallb seg_ok crlf_template = true
  /\ exists written,
       Posix.write_alembic_ini sound_device (env 0) (Some "/tmp/x/alembic.ini")
         (Some "sqlite:///g.db") (world (template_text crlf_template))
       = (Return tt,
          set_nodes (world (template_text crlf_template))
            (<["/tmp/x/alembic.ini" := File written]>
               (nodes (world (template_text crlf_template)))))
       /\ written
          <> spec_substitute crlf_template (ALEMBIC_DIR (env 0)) "sqlite:///g.db".
Proof.
  split; [reflexivity |]. split; [reflexivity |].
  exists ("url = sqlite:///g.db" +:+ String Posix.LF EmptyString).
  split; [reflexivity | discriminate].
Qed.



(** The same file under two spellings of its path. *)
Example doubled_separator_reaches_the_same_file :
  Posix.target_key good "/tmp//x/./alembic.ini" = inr "/tmp/x/alembic.ini"
  /\ Posix.target_key good "" = inl (OSError FileNotFoundError "")
  /\ Posix.target_key good "/tmp/x/" = inl (OSError IsADirectoryError "/tmp/x/")
  /\ Posix.target_key good "/site/nbgrader/alembic.ini/a/b"
     = inl (OSError NotADirectoryError "/site/nbgrader/alembic.ini/a/b").
Proof. repeat split; reflexivity. Qed.

End PosixWitnesses.

(** ** Field names at the border of the hypotheses above *)

(** Digits beyond [PY_SSIZE_T_MAX] are an error before the letter after
    them is read, and digits before a letter make no index. *)
Example digits_then_letter :
  Format.get_field "99999999999999999999x" "/site/nbgrader/alembic" "sqlite:///g.db"
  = inl (ValueError "Too many decimal digits in format string")
  /\ Format.get_field "1x" "/site/nbgrader/alembic" "sqlite:///g.db" = inl (KeyError "1x").
Proof. split; reflexivity. Qed.
